(** * DHLink: Denavit-Hartenberg link descriptors

    A shallow embedding of [roboticstoolbox/robot/DHLink.py]: the
    [DHLink] class with its validating property setters, the link
    transform [A], the joint-type queries, the [+] operator, the string
    form and the four named subclasses [RevoluteDH], [PrismaticDH], [RevoluteMDH] and
    [PrismaticMDH].

    Modelling conventions.
    - A Python number (a [float], or the value a symbolic expression
      denotes) is a real number of [R]; [np.sin]/[np.cos] are [sin]/[cos].
    - [sigma] and the stored [mdh] are Python integers, modelled in [Z].
    - A Python object is a record of attribute slots; a slot is [None]
      until the attribute has been assigned, so that partially built
      objects can be described.
    - A method is a state-passing computation over the receiver [self]
      that returns a value or raises an exception.
    - The operands of [+] are objects held by reference: the chain keeps
      the links it is given, so [+] is a computation over a heap. *)

From Stdlib Require Import Reals Lra ZArith Bool List Ascii String Lia.
Import ListNotations.

Open Scope R_scope.

(** ** Python values used by the class *)

(** Exceptions raised in the module (or by attribute and index access). *)
Inductive exn : Type :=
| ValueError (msg : string)
| TypeError (msg : string)
| AttributeError (attr : string)
| IndexError.

Inductive result (X : Type) : Type :=
| Ok (x : X)
| Raise (e : exn).
Arguments Ok {X} x.
Arguments Raise {X} e.

(** The argument of [int(mdh_new)]: a Python [bool] or [int]. *)
Inductive pyint : Type :=
| PyBool (b : bool)
| PyInt (z : Z).

(** Python's [int(x)] on a [bool] or an [int]. *)
Definition int (x : pyint) : Z :=
  match x with
  | PyBool true => 1%Z
  | PyBool false => 0%Z
  | PyInt z => z
  end.

(** Truth value of a Python integer, as tested by [if self.sigma]. *)
Definition truthy (z : Z) : bool := negb (z =? 0)%Z.

(** The comparison [x != 0.0]. *)
Definition ne0 (x : R) : bool := if Req_dec_T x 0 then false else true.

(** A numpy array built from four rows of four entries. *)
Definition matrix : Type := list (list R).

(** [SE3(T, check=False)]: the array wrapped as a pose, unchecked. *)
Record SE3 : Type := mkSE3 { SE3_A : matrix }.

(** ** The object *)

Record DHLink : Type := mkDHLink {
  (* attributes of the [Link] base class read by this module *)
  _offset : option R;
  _flip : option bool;
  _qlim : option (R * R);
  (* attributes assigned by [DHLink.__init__] through the setters *)
  _sigma : option Z;
  _theta : option R;
  _d : option R;
  _alpha : option R;
  _a : option R;
  _mdh : option Z;
  (* [self.id]: unassigned, [None], or an integer *)
  id : option (option Z)
}.

(** The object handed to [__init__]: no attribute assigned yet. *)
Definition empty : DHLink :=
  mkDHLink None None None None None None None None None None.

(** Attribute stores [self._x = v]. *)
Definition store_offset (v : R) (l : DHLink) : DHLink :=
  mkDHLink (Some v) (_flip l) (_qlim l) (_sigma l) (_theta l) (_d l)
           (_alpha l) (_a l) (_mdh l) (id l).
Definition store_flip (v : bool) (l : DHLink) : DHLink :=
  mkDHLink (_offset l) (Some v) (_qlim l) (_sigma l) (_theta l) (_d l)
           (_alpha l) (_a l) (_mdh l) (id l).
Definition store_qlim (v : R * R) (l : DHLink) : DHLink :=
  mkDHLink (_offset l) (_flip l) (Some v) (_sigma l) (_theta l) (_d l)
           (_alpha l) (_a l) (_mdh l) (id l).
Definition store_sigma (v : Z) (l : DHLink) : DHLink :=
  mkDHLink (_offset l) (_flip l) (_qlim l) (Some v) (_theta l) (_d l)
           (_alpha l) (_a l) (_mdh l) (id l).
Definition store_theta (v : R) (l : DHLink) : DHLink :=
  mkDHLink (_offset l) (_flip l) (_qlim l) (_sigma l) (Some v) (_d l)
           (_alpha l) (_a l) (_mdh l) (id l).
Definition store_d (v : R) (l : DHLink) : DHLink :=
  mkDHLink (_offset l) (_flip l) (_qlim l) (_sigma l) (_theta l) (Some v)
           (_alpha l) (_a l) (_mdh l) (id l).
Definition store_alpha (v : R) (l : DHLink) : DHLink :=
  mkDHLink (_offset l) (_flip l) (_qlim l) (_sigma l) (_theta l) (_d l)
           (Some v) (_a l) (_mdh l) (id l).
Definition store_a (v : R) (l : DHLink) : DHLink :=
  mkDHLink (_offset l) (_flip l) (_qlim l) (_sigma l) (_theta l) (_d l)
           (_alpha l) (Some v) (_mdh l) (id l).
Definition store_mdh (v : Z) (l : DHLink) : DHLink :=
  mkDHLink (_offset l) (_flip l) (_qlim l) (_sigma l) (_theta l) (_d l)
           (_alpha l) (_a l) (Some v) (id l).
Definition store_id (v : option Z) (l : DHLink) : DHLink :=
  mkDHLink (_offset l) (_flip l) (_qlim l) (_sigma l) (_theta l) (_d l)
           (_alpha l) (_a l) (_mdh l) (Some v).

(** ** Methods: state over [self], plus exceptions *)

Definition M (X : Type) : Type := DHLink -> DHLink * result X.

Definition ret {X} (x : X) : M X := fun self => (self, Ok x).

Definition raise {X} (e : exn) : M X := fun self => (self, Raise e).

Definition bind {X Y} (m : M X) (k : X -> M Y) : M Y :=
  fun self =>
    match m self with
    | (self', Ok x) => k x self'
    | (self', Raise e) => (self', Raise e)
    end.

Notation "x <- m ;; k" := (bind m (fun x => k))
  (at level 61, m at next level, right associativity).
Notation "m ;;; k" := (bind m (fun _ => k))
  (at level 61, right associativity).

(** Reading an attribute slot; an unassigned one raises. *)
Definition getattr {X} (name : string) (slot : DHLink -> option X) : M X :=
  fun self =>
    match slot self with
    | Some v => (self, Ok v)
    | None => (self, Raise (AttributeError name))
    end.

(** Writing an attribute slot. *)
Definition setattr (upd : DHLink -> DHLink) : M unit :=
  fun self => (upd self, Ok tt).

(** *** Property getters *)

Definition d_getter : M R := getattr "_d" _d.
Definition alpha_getter : M R := getattr "_alpha" _alpha.
Definition theta_getter : M R := getattr "_theta" _theta.
Definition a_getter : M R := getattr "_a" _a.
Definition sigma_getter : M Z := getattr "_sigma" _sigma.
Definition mdh_getter : M Z := getattr "_mdh" _mdh.
Definition offset_getter : M R := getattr "offset" _offset.
Definition flip_getter : M bool := getattr "flip" _flip.

(** *** Property setters *)

(** Modelled from the spec: the decorator [_listen_dyn] of [Link.py],
    the change-notification hook of the base collaborator.  It signals
    the owning chain and then runs the setter; it reads and writes no
    attribute of the descriptor itself. *)
Definition _listen_dyn {X} (func : X -> M unit) : X -> M unit := func.

Definition d_setter : R -> M unit :=
  _listen_dyn (fun d_new =>
    sigma <- sigma_getter ;;
    if truthy sigma && ne0 d_new
    then raise (ValueError "f is not valid for prismatic joints")
    else setattr (store_d d_new)).

Definition alpha_setter : R -> M unit :=
  _listen_dyn (fun alpha_new => setattr (store_alpha alpha_new)).

Definition theta_setter : R -> M unit :=
  _listen_dyn (fun theta_new =>
    sigma <- sigma_getter ;;
    if negb (truthy sigma) && ne0 theta_new
    then raise (ValueError "theta is not valid for revolute joints")
    else setattr (store_theta theta_new)).

Definition a_setter : R -> M unit :=
  _listen_dyn (fun a_new => setattr (store_a a_new)).

Definition sigma_setter : Z -> M unit :=
  _listen_dyn (fun sigma_new => setattr (store_sigma sigma_new)).

Definition mdh_setter : pyint -> M unit :=
  _listen_dyn (fun mdh_new => setattr (store_mdh (int mdh_new))).

(** *** Construction *)

(** Keyword arguments forwarded to the base class; [None] is an omitted
    keyword. *)
Record kwargs : Type := mkKwargs {
  kw_offset : option R;
  kw_qlim : option (R * R);
  kw_flip : option bool
}.

Definition no_kwargs : kwargs := mkKwargs None None None.

(** A parameter default: the value passed, or the default of the
    signature. *)
Definition dflt {X} (default : X) (arg : option X) : X :=
  match arg with
  | Some v => v
  | None => default
  end.

(** Modelled from the spec: [Link.__init__] of [Link.py], the base
    collaborator holding the [offset], [flip] and limit attributes; an
    omitted keyword takes the default the subclasses of this module use
    ([0.0], [np.zeros(2)], [False]). *)
Definition Link__init__ (kw : kwargs) : M unit :=
  setattr (store_offset (dflt 0 (kw_offset kw))) ;;;
  setattr (store_qlim (dflt (0, 0) (kw_qlim kw))) ;;;
  setattr (store_flip (dflt false (kw_flip kw))).

(** [DHLink.__init__(self, d=0.0, alpha=0.0, theta=0.0, a=0.0, sigma=0,
    mdh=False, **kwargs)]; an argument [None] was omitted by the caller. *)
Definition DHLink__init__ (d alpha theta a : option R) (sigma : option Z)
    (mdh : option pyint) (kw : kwargs) : M unit :=
  let d := dflt 0 d in
  let alpha := dflt 0 alpha in
  let theta := dflt 0 theta in
  let a := dflt 0 a in
  let sigma := dflt 0%Z sigma in
  let mdh := dflt (PyBool false) mdh in
  Link__init__ kw ;;;
  sigma_setter sigma ;;;
  theta_setter theta ;;;
  d_setter d ;;;
  alpha_setter alpha ;;;
  a_setter a ;;;
  mdh_setter mdh ;;;
  setattr (store_id None).

(** The keywords a subclass forwards: its own [offset], [qlim], [flip]. *)
Definition forwarded (offset : option R) (qlim : option (R * R))
    (flip : option bool) : kwargs :=
  mkKwargs (Some (dflt 0 offset)) (Some (dflt (0, 0) qlim))
           (Some (dflt false flip)).

(** The keywords every subclass passes explicitly in its call
    [super().__init__(d=d, alpha=alpha, theta=theta, a=a, sigma=sigma,
    mdh=mdh, offset=offset, qlim=qlim, flip=flip, **kwargs)]. *)
Definition explicit_keywords : list string :=
  ["d"; "alpha"; "theta"; "a"; "sigma"; "mdh"; "offset"; "qlim"; "flip"]%string.

(** The first keyword of [**kwargs], in the order the caller wrote them,
    that the call also passes explicitly. *)
Definition repeated_keyword (more_kwargs : list string) : option string :=
  find (fun k => existsb (String.eqb k) explicit_keywords) more_kwargs.

(** The call [super().__init__(..., **kwargs)] of a subclass.
    [more_kwargs] lists the names of the keywords the caller gave beyond
    the parameters of the subclass.  A name that the call also passes
    explicitly is a [TypeError] of the call itself, raised before
    [DHLink.__init__] runs (the interpreter puts the name of the callee
    in front of the message).  The other names are keywords of the base
    class, passed on to it with [offset], [qlim] and [flip]. *)
Definition super__init__ (d alpha theta a : R) (sigma : Z) (mdh : pyint)
    (kw : kwargs) (more_kwargs : list string) : M unit :=
  match repeated_keyword more_kwargs with
  | Some k =>
      raise (TypeError
               ("__init__() got multiple values for keyword argument '"
                ++ k ++ "'"))
  | None =>
      DHLink__init__ (Some d) (Some alpha) (Some theta) (Some a) (Some sigma)
                     (Some mdh) kw
  end.

Definition RevoluteDH__init__ (d a alpha offset : option R)
    (qlim : option (R * R)) (flip : option bool)
    (more_kwargs : list string) : M unit :=
  let d := dflt 0 d in
  let a := dflt 0 a in
  let alpha := dflt 0 alpha in
  let theta := 0 in
  let sigma := 0%Z in
  let mdh := PyBool false in
  super__init__ d alpha theta a sigma mdh (forwarded offset qlim flip)
                more_kwargs.

Definition PrismaticDH__init__ (theta a alpha offset : option R)
    (qlim : option (R * R)) (flip : option bool)
    (more_kwargs : list string) : M unit :=
  let theta := dflt 0 theta in
  let a := dflt 0 a in
  let alpha := dflt 0 alpha in
  let d := 0 in
  let sigma := 1%Z in
  let mdh := PyBool false in
  super__init__ d alpha theta a sigma mdh (forwarded offset qlim flip)
                more_kwargs.

Definition RevoluteMDH__init__ (d a alpha offset : option R)
    (qlim : option (R * R)) (flip : option bool)
    (more_kwargs : list string) : M unit :=
  let d := dflt 0 d in
  let a := dflt 0 a in
  let alpha := dflt 0 alpha in
  let theta := 0 in
  let sigma := 0%Z in
  let mdh := PyBool true in
  super__init__ d alpha theta a sigma mdh (forwarded offset qlim flip)
                more_kwargs.

Definition PrismaticMDH__init__ (theta a alpha offset : option R)
    (qlim : option (R * R)) (flip : option bool)
    (more_kwargs : list string) : M unit :=
  let theta := dflt 0 theta in
  let a := dflt 0 a in
  let alpha := dflt 0 alpha in
  let d := 0 in
  let sigma := 1%Z in
  let mdh := PyBool true in
  super__init__ d alpha theta a sigma mdh (forwarded offset qlim flip)
                more_kwargs.

(** A constructor call [cls(...)]: [__init__] runs on a new object, and
    the caller receives the object only when [__init__] returns. *)
Definition construct (init : M unit) : result DHLink :=
  match init empty with
  | (self, Ok _) => Ok self
  | (_, Raise e) => Raise e
  end.

(** *** The link transform *)

Definition A (q : R) : M SE3 :=
  alpha <- alpha_getter ;;
  let sa := sin alpha in
  let ca := cos alpha in
  flip <- flip_getter ;;
  offset <- offset_getter ;;
  let q := if flip then - q + offset else q + offset in
  sigma <- sigma_getter ;;
  std <- (if (sigma =? 0)%Z
          then (* revolute *)
            d <- d_getter ;; ret (sin q, cos q, d)
          else (* prismatic *)
            theta <- theta_getter ;; ret (sin theta, cos theta, q)) ;;
  let '(st, ct, d) := std in
  mdh <- mdh_getter ;;
  a <- a_getter ;;
  let T :=
    if (mdh =? 0)%Z
    then (* standard DH *)
      [ [ct; - st * ca; st * sa; a * ct];
        [st; ct * ca; - ct * sa; a * st];
        [0; sa; ca; d];
        [0; 0; 0; 1] ]
    else (* modified DH *)
      [ [ct; - st; 0; a];
        [st * ca; ct * ca; - sa; - sa * d];
        [st * sa; ct * sa; ca; ca * d];
        [0; 0; 0; 1] ]
  in
  ret (mkSE3 T).

(** *** Joint-type queries *)

Definition isrevolute : M bool :=
  sigma <- sigma_getter ;;
  if negb (truthy sigma) then ret true else ret false.

Definition isprismatic : M bool :=
  sigma <- sigma_getter ;;
  if truthy sigma then ret true else ret false.

(** *** The [+] operator *)

(** Links are Python objects held by reference: a chain keeps the very
    objects it was given, so what the chain does to its links is seen
    through every other reference to them.  A heap maps a reference to
    the object it denotes. *)
Definition ref : Type := nat.

Definition heap : Type := ref -> option DHLink.

(** A computation over the heap that returns or raises. *)
Definition H (X : Type) : Type := heap -> heap * result X.












(** ** Vocabulary of the specification *)

(** A descriptor: an object on which every attribute has been assigned. *)
Definition descriptor (offset : R) (flip : bool) (qlim : R * R)
    (sigma : Z) (theta d alpha a : R) (mdh : Z) (id_ : option Z) : DHLink :=
  mkDHLink (Some offset) (Some flip) (Some qlim) (Some sigma) (Some theta)
           (Some d) (Some alpha) (Some a) (Some mdh) (Some id_).

Definition initialised (l : DHLink) : Prop :=
  exists offset flip qlim sigma theta d alpha a mdh id_,
    l = descriptor offset flip qlim sigma theta d alpha a mdh id_.

(** The joint-type invariant of the data model: a prismatic joint has
    [d = 0], a revolute joint has [theta = 0]. *)
Definition joint_invariant (l : DHLink) : Prop :=
  match _sigma l, _d l, _theta l with
  | Some sigma, Some d, Some theta =>
      (truthy sigma = true -> d = 0) /\ (truthy sigma = false -> theta = 0)
  | _, _, _ => False
  end.

(** The first word of an error message. *)
Fixpoint first_word (s : string) : string :=
  match s with
  | EmptyString => EmptyString
  | String c rest =>
      if Ascii.eqb c " "%char then EmptyString else String c (first_word rest)
  end.

(** An error identifies a field when it is a [ValueError] whose message
    starts with the name of that field. *)
Definition identifies (field : string) (e : exn) : bool :=
  match e with
  | ValueError msg => String.eqb (first_word msg) field
  | _ => false
  end.

(** The setter calls a client can make on a descriptor. *)
Inductive mutation : Type :=
| Set_d (v : R)
| Set_alpha (v : R)
| Set_theta (v : R)
| Set_a (v : R)
| Set_sigma (v : Z)
| Set_mdh (v : pyint).

Definition mutate (m : mutation) : M unit :=
  match m with
  | Set_d v => d_setter v
  | Set_alpha v => alpha_setter v
  | Set_theta v => theta_setter v
  | Set_a v => a_setter v
  | Set_sigma v => sigma_setter v
  | Set_mdh v => mdh_setter v
  end.

(** The states a descriptor can be in: built by a constructor call that
    returned, then mutated by any number of setter calls, each of which
    either stores or raises. *)
Inductive reachable : DHLink -> Prop :=
| reach_new d alpha theta a sigma mdh kw self :
    construct (DHLink__init__ d alpha theta a sigma mdh kw) = Ok self ->
    reachable self
| reach_mutate m self :
    reachable self -> reachable (fst (mutate m self)).

(** The two matrices of section 4.2, over the resolved trigonometric
    pairs, the link length and the effective offset distance. *)
Definition standard_DH (st ct sa ca a d : R) : matrix :=
  [ [ct; - st * ca; st * sa; a * ct];
    [st; ct * ca; - ct * sa; a * st];
    [0; sa; ca; d];
    [0; 0; 0; 1] ].

Definition modified_DH (st ct sa ca a d : R) : matrix :=
  [ [ct; - st; 0; a];
    [st * ca; ct * ca; - sa; - sa * d];
    [st * sa; ct * sa; ca; ca * d];
    [0; 0; 0; 1] ].

(** Step 1 of section 4.2: the adjusted drive variable. *)
Definition adjusted (offset : R) (flip : bool) (q : R) : R :=
  if flip then - q + offset else q + offset.

(** Step 2 of section 4.2: the joint angle and the effective offset
    distance, by joint type. *)
Definition joint_angle (sigma : Z) (theta q' : R) : R :=
  if (sigma =? 0)%Z then q' else theta.

Definition offset_distance (sigma : Z) (d q' : R) : R :=
  if (sigma =? 0)%Z then d else q'.

(** The transform as the specification words it (section 4.2). *)
Definition A_spec (offset : R) (flip : bool) (sigma : Z)
    (theta d alpha a : R) (mdh : Z) (q : R) : matrix :=
  let q' := adjusted offset flip q in
  let st := sin (joint_angle sigma theta q') in
  let ct := cos (joint_angle sigma theta q') in
  let sa := sin alpha in
  let ca := cos alpha in
  let d := offset_distance sigma d q' in
  if (mdh =? 0)%Z
  then standard_DH st ct sa ca a d
  else modified_DH st ct sa ca a d.

(** The call [DHLink()]. *)
Definition DHLink_no_arguments : M unit :=
  DHLink__init__ None None None None None None no_kwargs.

(** The base-class part of an object under construction. *)
Definition based (kw : kwargs) : DHLink :=
  mkDHLink (Some (dflt 0 (kw_offset kw))) (Some (dflt false (kw_flip kw)))
           (Some (dflt (0, 0) (kw_qlim kw))) None None None None None None
           None.

(** Unfolding of the method plumbing, leaving numbers untouched. *)
Ltac run :=
  cbv [A isrevolute isprismatic mutate
       d_setter alpha_setter theta_setter a_setter sigma_setter mdh_setter
       d_getter alpha_getter theta_getter a_getter sigma_getter mdh_getter
       offset_getter flip_getter _listen_dyn Link__init__
       bind ret raise getattr setattr fst snd
       store_offset store_flip store_qlim store_sigma store_theta store_d
       store_alpha store_a store_mdh store_id descriptor empty
       _offset _flip _qlim _sigma _theta _d _alpha _a _mdh id].

(** ** String form *)

Definition id_getter : M (option Z) := getattr "id" id.

(** [DHLink.__str__].  The two conversions of [str.format] are taken as
    arguments: [format_2f] renders a number for the field [{: .2f}] and
    [format_id] renders [self.id] for the field [{}]. *)
Definition DHLink__str__ (format_2f : R -> string)
    (format_id : option Z -> string) : M string :=
  sigma <- sigma_getter ;;
  if negb (truthy sigma)
  then
    id_ <- id_getter ;;
    offset <- offset_getter ;;
    d <- d_getter ;;
    a <- a_getter ;;
    alpha <- alpha_getter ;;
    ret ("Revolute   theta=q" ++ format_id id_ ++ " +" ++ format_2f offset
         ++ ",  d=" ++ format_2f d ++ ",  a=" ++ format_2f a
         ++ ",  alpha=" ++ format_2f alpha)%string
  else
    theta <- theta_getter ;;
    id_ <- id_getter ;;
    offset <- offset_getter ;;
    a <- a_getter ;;
    alpha <- alpha_getter ;;
    ret ("Prismatic  theta=" ++ format_2f theta ++ ",  d=q" ++ format_id id_
         ++ " +" ++ format_2f offset ++ ",  a=" ++ format_2f a
         ++ ",  alpha=" ++ format_2f alpha)%string.

Definition DHLink__repr__ (format_2f : R -> string)
    (format_id : option Z -> string) : M string :=
  DHLink__str__ format_2f format_id.

(** ** Chains built with [+] *)


(** ** Matrix vocabulary *)

(** Inner product of two rows. *)
Fixpoint dot (u v : list R) : R :=
  match u, v with
  | x :: u', y :: v' => x * y + dot u' v'
  | _, _ => 0
  end.

(** Column [j] of a matrix. *)
Definition col (j : nat) (Y : matrix) : list R :=
  map (fun row => nth j row 0) Y.

Definition transpose (Y : matrix) : matrix :=
  map (fun j => col j Y) (seq 0 (List.length (hd [] Y))).

(** Matrix product. *)
Definition mmul (X Y : matrix) : matrix :=
  map (fun row => map (dot row) (transpose Y)) X.

(** The bottom row of a homogeneous transform. *)
Definition bottom_row (T : matrix) : list R := nth 3 T [].

(** The elementary transforms named in the class docstrings: rotation
    about and translation along the z and the x axis. *)
Definition T_rz (t : R) : matrix :=
  [ [cos t; - sin t; 0; 0];
    [sin t; cos t; 0; 0];
    [0; 0; 1; 0];
    [0; 0; 0; 1] ].

Definition T_rx (t : R) : matrix :=
  [ [1; 0; 0; 0];
    [0; cos t; - sin t; 0];
    [0; sin t; cos t; 0];
    [0; 0; 0; 1] ].

Definition T_tz (z : R) : matrix :=
  [ [1; 0; 0; 0]; [0; 1; 0; 0]; [0; 0; 1; z]; [0; 0; 0; 1] ].

Definition T_tx (x : R) : matrix :=
  [ [1; 0; 0; x]; [0; 1; 0; 0]; [0; 0; 1; 0]; [0; 0; 0; 1] ].

(** Unfolding of the matrix vocabulary on literal matrices. *)
Ltac matrices :=
  cbv [mmul transpose col dot bottom_row T_rz T_rx T_tz T_tx
       standard_DH modified_DH map seq nth hd List.length].

(** ** Basic facts *)

Lemma ne0_false (x : R) : ne0 x = false <-> x = 0.
Proof.
  unfold ne0. destruct (Req_dec_T x 0) as [E | E]; split; intro H;
    try reflexivity; try assumption; try discriminate; contradiction.
Qed.

Lemma ne0_true (x : R) : ne0 x = true <-> x <> 0.
Proof.
  unfold ne0. destruct (Req_dec_T x 0) as [E | E]; split; intro H;
    try reflexivity; try assumption; try discriminate; contradiction.
Qed.

Lemma ne0_0 : ne0 0 = false.
Proof. apply ne0_false. reflexivity. Qed.

Lemma ne0_1 : ne0 1 = true.
Proof. apply ne0_true. lra. Qed.

(** What each validating setter does once [sigma] is assigned. *)
Lemma d_setter_run (self : DHLink) (sigma : Z) (d_new : R) :
  _sigma self = Some sigma ->
  d_setter d_new self =
    if truthy sigma && ne0 d_new
    then (self, Raise (ValueError "f is not valid for prismatic joints"))
    else (store_d d_new self, Ok tt).
Proof.
  intros Hs. unfold d_setter, _listen_dyn, bind, sigma_getter, getattr.
  rewrite Hs. destruct (truthy sigma && ne0 d_new); reflexivity.
Qed.

Lemma theta_setter_run (self : DHLink) (sigma : Z) (theta_new : R) :
  _sigma self = Some sigma ->
  theta_setter theta_new self =
    if negb (truthy sigma) && ne0 theta_new
    then (self, Raise (ValueError "theta is not valid for revolute joints"))
    else (store_theta theta_new self, Ok tt).
Proof.
  intros Hs. unfold theta_setter, _listen_dyn, bind, sigma_getter, getattr.
  rewrite Hs. destruct (negb (truthy sigma) && ne0 theta_new); reflexivity.
Qed.

(** A setter that raises has stored nothing. *)
Lemma mutate_raise_unchanged (m : mutation) (self : DHLink) (e : exn) :
  snd (mutate m self) = Raise e -> fst (mutate m self) = self.
Proof.
  destruct m; run; destruct self as [o f ql [s|] th dd al aa md i]; cbn;
    try discriminate; try reflexivity.
  - destruct (truthy s && ne0 v); cbn; [reflexivity | discriminate].
  - destruct (negb (truthy s) && ne0 v); cbn; [reflexivity | discriminate].
Qed.

(** The whole of [DHLink.__init__], case by case. *)
Lemma DHLink__init___run d alpha theta a sigma mdh kw :
  DHLink__init__ d alpha theta a sigma mdh kw empty =
    let sigma' := dflt 0%Z sigma in
    let theta' := dflt 0 theta in
    let d' := dflt 0 d in
    if negb (truthy sigma') && ne0 theta'
    then (store_sigma sigma' (based kw),
          Raise (ValueError "theta is not valid for revolute joints"))
    else if truthy sigma' && ne0 d'
    then (store_theta theta' (store_sigma sigma' (based kw)),
          Raise (ValueError "f is not valid for prismatic joints"))
    else (descriptor (dflt 0 (kw_offset kw)) (dflt false (kw_flip kw))
                     (dflt (0, 0) (kw_qlim kw)) sigma' theta' d'
                     (dflt 0 alpha) (dflt 0 a) (int (dflt (PyBool false) mdh))
                     None,
          Ok tt).
Proof.
  unfold DHLink__init__. run. unfold based.
  destruct (negb (truthy (dflt 0%Z sigma)) && ne0 (dflt 0 theta));
    [reflexivity |].
  destruct (truthy (dflt 0%Z sigma) && ne0 (dflt 0 d)); reflexivity.
Qed.

(** Every reachable state has all its attributes assigned. *)
Lemma construct_initialised d alpha theta a sigma mdh kw self :
  construct (DHLink__init__ d alpha theta a sigma mdh kw) = Ok self ->
  initialised self.
Proof.
  unfold construct. rewrite DHLink__init___run. cbv zeta.
  destruct (negb (truthy (dflt 0%Z sigma)) && ne0 (dflt 0 theta));
    [discriminate |].
  destruct (truthy (dflt 0%Z sigma) && ne0 (dflt 0 d)); [discriminate |].
  intros H. injection H as <-. unfold initialised. repeat eexists.
Qed.

Lemma mutate_initialised (m : mutation) (self : DHLink) :
  initialised self -> initialised (fst (mutate m self)).
Proof.
  intros (o & f & ql & s & th & dd & al & aa & md & i & ->).
  destruct m; run.
  - destruct (truthy s && ne0 v); cbn; unfold initialised, descriptor;
      repeat eexists.
  - unfold initialised, descriptor; repeat eexists.
  - destruct (negb (truthy s) && ne0 v); cbn;
      unfold initialised, descriptor; repeat eexists.
  - unfold initialised, descriptor; repeat eexists.
  - unfold initialised, descriptor; repeat eexists.
  - unfold initialised, descriptor; repeat eexists.
Qed.

Lemma reachable_initialised (self : DHLink) :
  reachable self -> initialised self.
Proof.
  induction 1 as [d alpha theta a sigma mdh kw self H | m self _ IH].
  - eapply construct_initialised; eassumption.
  - apply mutate_initialised; assumption.
Qed.

(** A successful construction establishes the joint-type invariant. *)
Lemma construct_joint_invariant d alpha theta a sigma mdh kw self :
  construct (DHLink__init__ d alpha theta a sigma mdh kw) = Ok self ->
  joint_invariant self.
Proof.
  unfold construct. rewrite DHLink__init___run. cbv zeta.
  destruct (negb (truthy (dflt 0%Z sigma)) && ne0 (dflt 0 theta)) eqn:Et;
    [discriminate |].
  destruct (truthy (dflt 0%Z sigma) && ne0 (dflt 0 d)) eqn:Ed;
    [discriminate |].
  intros H. injection H as <-. unfold joint_invariant, descriptor; cbn.
  split; intros Hs; rewrite Hs in *; cbn in *; apply ne0_false; assumption.
Qed.

(** ** The link transform *)

(** [A] only reads its receiver. *)
Lemma A_reads_only (q : R) (self : DHLink) : fst (A q self) = self.
Proof.
  destruct self as [[o|] [f|] ql [s|] [th|] [dd|] [al|] [aa|] [md|] i];
    run; try reflexivity;
    destruct (s =? 0)%Z; reflexivity.
Qed.

(** [A] on an object whose attributes are assigned. *)
Lemma A_run (self : DHLink) offset flip sigma theta d alpha a mdh q :
  _offset self = Some offset -> _flip self = Some flip ->
  _sigma self = Some sigma -> _theta self = Some theta ->
  _d self = Some d -> _alpha self = Some alpha -> _a self = Some a ->
  _mdh self = Some mdh ->
  A q self = (self, Ok (mkSE3 (A_spec offset flip sigma theta d alpha a mdh q))).
Proof.
  intros Ho Hf Hs Ht Hd Hal Ha Hm.
  unfold A, bind, alpha_getter, flip_getter, offset_getter, sigma_getter,
    d_getter, theta_getter, mdh_getter, a_getter, getattr, ret.
  rewrite Hal, Hf, Ho, Hs.
  unfold A_spec, adjusted, joint_angle, offset_distance,
    standard_DH, modified_DH.
  destruct (sigma =? 0)%Z; [rewrite Hd | rewrite Ht]; rewrite Hm, Ha;
    destruct (mdh =? 0)%Z; reflexivity.
Qed.

(** C1. On every descriptor and for every joint value [q], [A] returns
    the matrix of section 4.2: the drive variable is adjusted by [flip]
    and [offset], the pair (st, ct) and the effective offset distance are
    resolved by joint type ([sigma = 0] revolute, otherwise prismatic),
    and the standard matrix is filled in when [mdh = 0], the modified one
    otherwise.  The receiver is left as it was. *)
Theorem A_computes_spec_matrix :
  forall offset flip qlim sigma theta d alpha a mdh id_ q,
    A q (descriptor offset flip qlim sigma theta d alpha a mdh id_) =
      (descriptor offset flip qlim sigma theta d alpha a mdh id_,
       Ok (mkSE3 (A_spec offset flip sigma theta d alpha a mdh q))).
Proof.
  intros. apply A_run; reflexivity.
Qed.

(** C6. With [offset = 0], for both conventions and both joint types,
    evaluating [A] at [q] on a flipped descriptor gives the transform
    that the same descriptor without [flip] gives at [-q]. *)
Theorem A_flip_is_negated_q :
  forall qlim sigma theta d alpha a mdh id_ q,
    snd (A q (descriptor 0 true qlim sigma theta d alpha a mdh id_)) =
    snd (A (- q) (descriptor 0 false qlim sigma theta d alpha a mdh id_)).
Proof.
  intros. rewrite !(A_run _ 0 _ sigma theta d alpha a mdh) by reflexivity.
  reflexivity.
Qed.

(** ** Joint-type queries *)

Lemma isrevolute_run (self : DHLink) (sigma : Z) :
  _sigma self = Some sigma ->
  isrevolute self = (self, Ok (sigma =? 0)%Z).
Proof.
  intros Hs. unfold isrevolute, bind, sigma_getter, getattr, truthy, ret.
  rewrite Hs. destruct (sigma =? 0)%Z; reflexivity.
Qed.

Lemma isprismatic_run (self : DHLink) (sigma : Z) :
  _sigma self = Some sigma ->
  isprismatic self = (self, Ok (negb (sigma =? 0)%Z)).
Proof.
  intros Hs. unfold isprismatic, bind, sigma_getter, getattr, truthy, ret.
  rewrite Hs. destruct (sigma =? 0)%Z; reflexivity.
Qed.

(** C9. In every reachable state of a descriptor, [isrevolute] and
    [isprismatic] both return, leave the descriptor untouched, depend on
    [sigma] alone, and give opposite answers: exactly one is [True]. *)
Theorem isrevolute_xor_isprismatic :
  forall self, reachable self ->
    exists sigma,
      _sigma self = Some sigma /\
      isrevolute self = (self, Ok (sigma =? 0)%Z) /\
      isprismatic self = (self, Ok (negb (sigma =? 0)%Z)).
Proof.
  intros self Hr.
  destruct (reachable_initialised self Hr)
    as (o & f & ql & s & th & dd & al & aa & md & i & ->).
  exists s. split; [reflexivity |].
  split; [apply isrevolute_run | apply isprismatic_run]; reflexivity.
Qed.

Lemma isrevolute_xor_isprismatic_witness :
  exists self,
    reachable self /\
    exists sigma,
      _sigma self = Some sigma /\
      isrevolute self = (self, Ok (sigma =? 0)%Z) /\
      isprismatic self = (self, Ok (negb (sigma =? 0)%Z)).
Proof.
  exists (descriptor 0 false (0, 0) 0 0 0 0 0 0 None).
  assert (Hr : reachable (descriptor 0 false (0, 0) 0 0 0 0 0 0 None)).
  { apply (reach_new None None None None None None no_kwargs).
    unfold construct. rewrite DHLink__init___run. cbv [dflt].
    rewrite ne0_0. reflexivity. }
  split; [exact Hr |].
  exact (isrevolute_xor_isprismatic _ Hr).
Defined.

(** ** Construction *)

(** C10. [DHLink()] succeeds and yields a revolute ([sigma = 0]),
    standard-convention ([mdh] stored as [0]) descriptor with
    [d = alpha = theta = a = 0] and [id = None]. *)
Theorem DHLink_default_construction :
  exists self,
    construct DHLink_no_arguments = Ok self /\
    _sigma self = Some 0%Z /\ _mdh self = Some 0%Z /\
    _d self = Some 0 /\ _alpha self = Some 0 /\
    _theta self = Some 0 /\ _a self = Some 0 /\
    id self = Some None /\
    isrevolute self = (self, Ok true).
Proof.
  eexists. unfold construct, DHLink_no_arguments.
  rewrite DHLink__init___run. cbv [dflt]. rewrite ne0_0.
  cbn [truthy Z.eqb negb andb].
  split; [reflexivity |]. repeat (split; [reflexivity |]).
  reflexivity.
Qed.

(** ** Validation in the setters *)

(** When the [d] and [theta] setters raise, and what they store. *)
Lemma d_setter_raises_iff offset flip qlim sigma theta d alpha a mdh id_ v :
  let self := descriptor offset flip qlim sigma theta d alpha a mdh id_ in
  (exists e, snd (d_setter v self) = Raise e) <->
  (truthy sigma = true /\ v <> 0).
Proof.
  cbv zeta. rewrite (d_setter_run _ sigma) by reflexivity.
  destruct (truthy sigma); cbn [andb].
  - destruct (ne0 v) eqn:E; cbn [snd]; split.
    + intros _. split; [reflexivity | apply ne0_true; assumption].
    + intros _. eexists; reflexivity.
    + intros [e He]; discriminate.
    + intros [_ Hv]. apply ne0_false in E. contradiction.
  - cbn [snd]. split; [intros [e He] | intros [He _]]; discriminate.
Qed.

Lemma theta_setter_raises_iff offset flip qlim sigma theta d alpha a mdh id_ v :
  let self := descriptor offset flip qlim sigma theta d alpha a mdh id_ in
  (exists e, snd (theta_setter v self) = Raise e) <->
  (truthy sigma = false /\ v <> 0).
Proof.
  cbv zeta. rewrite (theta_setter_run _ sigma) by reflexivity.
  destruct (truthy sigma); cbn [andb negb].
  - cbn [snd]. split; [intros [e He] | intros [He _]]; discriminate.
  - destruct (ne0 v) eqn:E; cbn [snd]; split.
    + intros _. split; [reflexivity | apply ne0_true; assumption].
    + intros _. eexists; reflexivity.
    + intros [e He]; discriminate.
    + intros [_ Hv]. apply ne0_false in E. contradiction.
Qed.

Lemma setters_store_zero offset flip qlim sigma theta d alpha a mdh id_ :
  let self := descriptor offset flip qlim sigma theta d alpha a mdh id_ in
  d_setter 0 self = (store_d 0 self, Ok tt) /\
  theta_setter 0 self = (store_theta 0 self, Ok tt).
Proof.
  cbv zeta. rewrite (d_setter_run _ sigma), (theta_setter_run _ sigma)
    by reflexivity.
  rewrite ne0_0, !andb_false_r. split; reflexivity.
Qed.

Lemma unvalidated_setters_store (self : DHLink) (v : R) :
  alpha_setter v self = (store_alpha v self, Ok tt) /\
  a_setter v self = (store_a v self, Ok tt).
Proof. split; reflexivity. Qed.

(** C2, at the failing input.  On the descriptor built by
    [PrismaticDH()], the assignment [link.d = 1.0] is rejected, but the
    error raised names [f]: its message does not identify the field [d].
    The sibling setter, rejecting [link.theta = 1.0] on [RevoluteDH()],
    does name its field. *)
Theorem d_setter_error_names_wrong_field :
  let prismatic := descriptor 0 false (0, 0) 1 0 0 0 0 0 None in
  let revolute := descriptor 0 false (0, 0) 0 0 0 0 0 0 None in
  construct (PrismaticDH__init__ None None None None None None [])
    = Ok prismatic /\
  d_setter 1 prismatic =
    (prismatic, Raise (ValueError "f is not valid for prismatic joints")) /\
  identifies "d" (ValueError "f is not valid for prismatic joints") = false /\
  construct (RevoluteDH__init__ None None None None None None [])
    = Ok revolute /\
  theta_setter 1 revolute =
    (revolute, Raise (ValueError "theta is not valid for revolute joints")) /\
  identifies "theta" (ValueError "theta is not valid for revolute joints")
    = true.
Proof.
  cbv zeta. unfold construct, PrismaticDH__init__, RevoluteDH__init__.
  cbv [super__init__ repeated_keyword find].
  rewrite !DHLink__init___run. cbv [dflt forwarded kw_offset kw_flip kw_qlim].
  rewrite ne0_0.
  rewrite (d_setter_run _ 1%Z), (theta_setter_run _ 0%Z) by reflexivity.
  rewrite ne0_1.
  repeat split; reflexivity.
Qed.

(** ** Atomicity *)

(** C3, counterexample.  [DHLink(theta=1.0)] fails in the [theta]
    setter, after [sigma] has been stored on the object. *)
Lemma failed_construction_has_stored_sigma :
  let r := DHLink__init__ None None (Some 1) None None None no_kwargs empty in
  snd r = Raise (ValueError "theta is not valid for revolute joints") /\
  _sigma (fst r) = Some 0%Z.
Proof.
  cbv zeta. rewrite DHLink__init___run. cbv [dflt]. rewrite ne0_1.
  split; reflexivity.
Qed.

(** C3, as amended.  A setter call that raises leaves every attribute
    as it was.  A construction assigns [sigma], [theta], [d], [alpha],
    [a], [mdh] in this order and stops at the first rejected value: when
    [theta] is rejected [sigma] is already stored, when [d] is rejected
    [sigma] and [theta] are already stored, the rejected field and the
    later ones are not, and the caller receives no descriptor. *)
Theorem failed_assignment_stores_nothing_more :
  (forall m self e,
     snd (mutate m self) = Raise e -> fst (mutate m self) = self) /\
  (forall d alpha theta a sigma mdh kw self e,
     DHLink__init__ d alpha theta a sigma mdh kw empty = (self, Raise e) ->
     construct (DHLink__init__ d alpha theta a sigma mdh kw) = Raise e /\
     ((e = ValueError "theta is not valid for revolute joints" /\
       truthy (dflt 0%Z sigma) = false /\ dflt 0 theta <> 0 /\
       self = store_sigma (dflt 0%Z sigma) (based kw))
      \/
      (e = ValueError "f is not valid for prismatic joints" /\
       truthy (dflt 0%Z sigma) = true /\ dflt 0 d <> 0 /\
       self = store_theta (dflt 0 theta)
                (store_sigma (dflt 0%Z sigma) (based kw))))).
Proof.
  split; [exact mutate_raise_unchanged |].
  intros d alpha theta a sigma mdh kw self e H.
  split; [unfold construct; rewrite H; reflexivity |].
  rewrite DHLink__init___run in H. cbv zeta in H.
  destruct (truthy (dflt 0%Z sigma)) eqn:Es; cbn [negb andb] in H.
  - destruct (ne0 (dflt 0 d)) eqn:Ed; [| discriminate].
    injection H as <- <-. right.
    repeat split. apply ne0_true; assumption.
  - destruct (ne0 (dflt 0 theta)) eqn:Et; [| discriminate].
    injection H as <- <-. left.
    repeat split. apply ne0_true; assumption.
Qed.

Lemma failed_assignment_stores_nothing_more_witness :
  let prismatic := descriptor 0 false (0, 0) 1 0 0 0 0 0 None in
  fst (mutate (Set_d 1) prismatic) = prismatic /\
  construct (DHLink__init__ (Some 1) None (Some 2) None (Some 1%Z) None
                            no_kwargs)
    = Raise (ValueError "f is not valid for prismatic joints").
Proof.
  cbv zeta. split.
  - apply (proj1 failed_assignment_stores_nothing_more (Set_d 1) _
             (ValueError "f is not valid for prismatic joints")).
    cbn [mutate]. rewrite (d_setter_run _ 1%Z) by reflexivity.
    rewrite ne0_1. reflexivity.
  - apply (proj2 failed_assignment_stores_nothing_more
             (Some 1) None (Some 2) None (Some 1%Z) None no_kwargs
             (store_theta 2 (store_sigma 1%Z (based no_kwargs)))).
    rewrite DHLink__init___run. cbv [dflt]. rewrite ne0_1. reflexivity.
Defined.

(** ** The joint-type invariant under mutation *)

(** C4, counterexample.  On the descriptor built by [RevoluteDH(d=1.0)]
    the invariant holds; [link.sigma = 1] completes without error and
    leaves a prismatic descriptor with [d = 1]. *)
Lemma sigma_setter_breaks_invariant :
  let self := descriptor 0 false (0, 0) 0 0 1 0 0 0 None in
  construct (RevoluteDH__init__ (Some 1) None None None None None [])
    = Ok self /\
  joint_invariant self /\
  snd (mutate (Set_sigma 1) self) = Ok tt /\
  ~ joint_invariant (fst (mutate (Set_sigma 1) self)).
Proof.
  cbv zeta. split; [| split; [| split]].
  - unfold construct, RevoluteDH__init__.
    cbv [super__init__ repeated_keyword find]. rewrite DHLink__init___run.
    cbv [dflt forwarded kw_offset kw_flip kw_qlim]. rewrite ne0_0.
    reflexivity.
  - unfold joint_invariant; cbn. split; [discriminate | reflexivity].
  - reflexivity.
  - unfold joint_invariant; cbn. intros [H _].
    specialize (H eq_refl). lra.
Qed.

(** C4, as amended.  Construction establishes the invariant, and every
    call of the [d], [alpha], [theta], [a] or [mdh] setter that completes
    without error keeps it.  The [sigma] setter validates nothing: it
    always completes and stores its argument; it keeps the invariant when
    the new value denotes the same joint type as the old one. *)
Theorem validated_setters_keep_invariant :
  (forall d alpha theta a sigma mdh kw self,
     construct (DHLink__init__ d alpha theta a sigma mdh kw) = Ok self ->
     joint_invariant self) /\
  (forall m self,
     joint_invariant self ->
     (forall v, m <> Set_sigma v) ->
     snd (mutate m self) = Ok tt ->
     joint_invariant (fst (mutate m self))) /\
  (forall v self,
     mutate (Set_sigma v) self = (store_sigma v self, Ok tt)) /\
  (forall v self sigma,
     joint_invariant self ->
     _sigma self = Some sigma -> truthy v = truthy sigma ->
     joint_invariant (store_sigma v self)).
Proof.
  split; [exact construct_joint_invariant |].
  split; [| split; [reflexivity |]].
  - intros m self Hinv Hm.
    destruct self as [o f ql [s|] [th|] [dd|] al aa md i];
      try contradiction.
    unfold joint_invariant in Hinv; cbn in Hinv. destruct Hinv as [Hd Ht].
    destruct m; run; unfold joint_invariant.
    + destruct (truthy s) eqn:Es; cbn [andb].
      * destruct (ne0 v) eqn:Ev; cbn; [discriminate |].
        intros _. rewrite Es. split; [intros _ | discriminate].
        apply ne0_false; assumption.
      * cbn. intros _. rewrite Es. split; [discriminate | assumption].
    + cbn. intros _. split; assumption.
    + destruct (truthy s) eqn:Es; cbn [andb negb].
      * cbn. intros _. rewrite Es. split; [assumption | discriminate].
      * destruct (ne0 v) eqn:Ev; cbn; [discriminate |].
        intros _. rewrite Es. split; [discriminate | intros _].
        apply ne0_false; assumption.
    + cbn. intros _. split; assumption.
    + exfalso. apply (Hm v). reflexivity.
    + cbn. intros _. split; assumption.
  - intros v self sigma Hinv Hs Hv.
    destruct self as [o f ql [s|] [th|] [dd|] al aa md i];
      try contradiction.
    cbn in Hs. injection Hs as ->.
    unfold joint_invariant in *; cbn in *. rewrite Hv. assumption.
Qed.

Lemma validated_setters_keep_invariant_witness :
  let self := descriptor 0 false (0, 0) 1 2 0 0 0 0 None in
  joint_invariant self /\
  joint_invariant (fst (mutate (Set_theta 3) self)) /\
  joint_invariant (store_sigma 5 self).
Proof.
  cbv zeta.
  assert (Hc : construct (PrismaticDH__init__ (Some 2) None None None None
                                              None [])
               = Ok (descriptor 0 false (0, 0) 1 2 0 0 0 0 None)).
  { unfold construct, PrismaticDH__init__.
    cbv [super__init__ repeated_keyword find]. rewrite DHLink__init___run.
    cbv [dflt forwarded kw_offset kw_flip kw_qlim]. rewrite ne0_0.
    reflexivity. }
  pose proof (proj1 validated_setters_keep_invariant _ _ _ _ _ _ _ _ Hc)
    as Hinv.
  split; [exact Hinv |]. split.
  - apply (proj1 (proj2 validated_setters_keep_invariant)).
    + exact Hinv.
    + intros v; discriminate.
    + cbn [mutate]. rewrite (theta_setter_run _ 1%Z) by reflexivity.
      reflexivity.
  - apply (proj2 (proj2 (proj2 validated_setters_keep_invariant)) 5%Z _ 1%Z).
    + exact Hinv.
    + reflexivity.
    + reflexivity.
Defined.

(** ** The [+] operator *)













(** ** Standard against modified convention *)

(** C7, counterexample.  A revolute link with [d = 0], [a = 1],
    [alpha = 1], evaluated at [q = 0] with [offset = 0] and no flip, has
    the same matrix in both conventions, although [alpha <> 0] and
    [a <> 0]. *)
Lemma conventions_agree_at_rest :
  (1 <> 0 /\ (0 <> 0 \/ 1 <> 0)) /\
  snd (A 0 (descriptor 0 false (0, 0) 0 0 0 1 1 0 None)) =
  snd (A 0 (descriptor 0 false (0, 0) 0 0 0 1 1 1 None)).
Proof.
  split; [split; [| right]; lra |].
  rewrite (A_run _ 0 false 0%Z 0 0 1 1 0%Z) by reflexivity.
  rewrite (A_run _ 0 false 0%Z 0 0 1 1 1%Z) by reflexivity. cbn [snd].
  unfold A_spec, adjusted, joint_angle, offset_distance,
    standard_DH, modified_DH.
  cbn [Z.eqb]. rewrite Rplus_0_r, sin_0, cos_0.
  do 2 f_equal. repeat (f_equal; try ring).
Qed.

(** C7, as amended.  With [offset = 0], no flip and [sin alpha <> 0],
    the standard and the modified matrix of the same parameters differ
    exactly when the effective offset distance is not 0 or the joint
    angle is not a whole number of turns (its sine is not 0 or its
    cosine is not 1). *)
Theorem conventions_differ_iff :
  forall qlim sigma theta d alpha a mdh id_ q,
    sin alpha <> 0 -> mdh <> 0%Z ->
    (snd (A q (descriptor 0 false qlim sigma theta d alpha a 0 id_)) <>
     snd (A q (descriptor 0 false qlim sigma theta d alpha a mdh id_)))
    <->
    (offset_distance sigma d q <> 0 \/
     sin (joint_angle sigma theta q) <> 0 \/
     cos (joint_angle sigma theta q) <> 1).
Proof.
  intros qlim sigma theta d alpha a mdh id_ q Hsa Hmdh.
  rewrite (A_run _ 0 false sigma theta d alpha a 0%Z) by reflexivity.
  rewrite (A_run _ 0 false sigma theta d alpha a mdh) by reflexivity.
  cbn [snd]. unfold A_spec, adjusted.
  apply Z.eqb_neq in Hmdh. rewrite Hmdh. cbn [Z.eqb].
  rewrite Rplus_0_r.
  set (dd := offset_distance sigma d q).
  set (st := sin (joint_angle sigma theta q)).
  set (ct := cos (joint_angle sigma theta q)).
  set (sa := sin alpha) in *. set (ca := cos alpha).
  unfold standard_DH, modified_DH. split.
  - intros Hne.
    destruct (Req_dec dd 0) as [Hd | Hd]; [| left; exact Hd].
    destruct (Req_dec st 0) as [Hs | Hs]; [| right; left; exact Hs].
    destruct (Req_dec ct 1) as [Hc | Hc]; [| right; right; exact Hc].
    exfalso. apply Hne. rewrite Hd, Hs, Hc.
    do 2 f_equal. repeat (f_equal; try ring).
  - intros Hor Heq. injection Heq as _ E02 _ _ _ E13 _ E21 _.
    assert (Hs : st = 0).
    { destruct (Rmult_integral _ _ E02) as [H | H];
        [exact H | contradiction]. }
    assert (Hc : ct = 1).
    { assert (H : (ct - 1) * sa = 0) by lra.
      destruct (Rmult_integral _ _ H) as [H' | H']; [lra | contradiction]. }
    assert (Hd : dd = 0).
    { rewrite Hs in E13.
      assert (H : sa * dd = 0) by lra.
      destruct (Rmult_integral _ _ H) as [H' | H'];
        [contradiction | exact H']. }
    destruct Hor as [H | [H | H]]; contradiction.
Qed.

Lemma sin_1_neq_0 : sin 1 <> 0.
Proof.
  assert (H : 0 < sin 1).
  { apply sin_gt_0; [lra |]. pose proof PI2_1. pose proof PI2_Rlt_PI. lra. }
  lra.
Qed.

Lemma conventions_differ_iff_witness :
  sin 1 <> 0 /\ 1%Z <> 0%Z /\
  snd (A 0 (descriptor 0 false (0, 0) 0 0 1 1 0 0 None)) <>
  snd (A 0 (descriptor 0 false (0, 0) 0 0 1 1 0 1 None)).
Proof.
  split; [exact sin_1_neq_0 |]. split; [discriminate |].
  assert (H10 : 1%Z <> 0%Z) by discriminate.
  apply (proj2 (conventions_differ_iff (0, 0) 0%Z 0 1 1 0 1%Z None 0
                  sin_1_neq_0 H10)).
  left. unfold offset_distance. cbn [Z.eqb]. lra.
Defined.

(** ** The fixed scalar of a prismatic link *)

(** C8, counterexample.  [PrismaticDH(theta=1.0)] is a valid
    construction; the descriptor stores [theta = 1], and at [q = 0] the
    transform is built from (st, ct) = (sin 1, cos 1), with [sin 1]
    different from [0]. *)
Lemma prismatic_theta_need_not_be_zero :
  let self := descriptor 0 false (0, 0) 1 1 0 0 0 0 None in
  construct (PrismaticDH__init__ (Some 1) None None None None None [])
    = Ok self /\
  _theta self = Some 1 /\ 1 <> 0 /\
  snd (A 0 self) =
    Ok (mkSE3 (standard_DH (sin 1) (cos 1) (sin 0) (cos 0) 0 (0 + 0))) /\
  sin 1 <> 0.
Proof.
  cbv zeta. split; [| split; [| split; [| split]]].
  - unfold construct, PrismaticDH__init__.
    cbv [super__init__ repeated_keyword find]. rewrite DHLink__init___run.
    cbv [dflt forwarded kw_offset kw_flip kw_qlim]. rewrite ne0_0.
    reflexivity.
  - reflexivity.
  - lra.
  - rewrite (A_run _ 0 false 1%Z 1 0 0 0 0%Z) by reflexivity. reflexivity.
  - exact sin_1_neq_0.
Qed.

(** C8, as amended.  A validly constructed prismatic descriptor stores
    [d = 0] and the [theta] given at construction, whatever its value;
    in [A] the prismatic branch resolves (st, ct) =
    (sin theta, cos theta) from that stored [theta], and the effective
    offset distance is the adjusted joint value. *)
Theorem prismatic_stores_zero_d_and_given_theta :
  forall d alpha theta a sigma mdh kw self,
    truthy (dflt 0%Z sigma) = true ->
    construct (DHLink__init__ d alpha theta a sigma mdh kw) = Ok self ->
    _d self = Some 0 /\
    _theta self = Some (dflt 0 theta) /\
    isprismatic self = (self, Ok true) /\
    forall q,
      snd (A q self) =
        Ok (mkSE3
              ((if (int (dflt (PyBool false) mdh) =? 0)%Z
                then standard_DH else modified_DH)
                 (sin (dflt 0 theta)) (cos (dflt 0 theta))
                 (sin (dflt 0 alpha)) (cos (dflt 0 alpha))
                 (dflt 0 a)
                 (adjusted (dflt 0 (kw_offset kw)) (dflt false (kw_flip kw))
                           q))).
Proof.
  intros d alpha theta a sigma mdh kw self Hs.
  unfold construct. rewrite DHLink__init___run. cbv zeta.
  rewrite Hs. cbn [negb andb].
  destruct (ne0 (dflt 0 d)) eqn:Ed; [discriminate |].
  apply ne0_false in Ed. rewrite Ed.
  intros H. injection H as <-.
  split; [reflexivity |]. split; [reflexivity |]. split.
  - rewrite (isprismatic_run _ (dflt 0%Z sigma)) by reflexivity.
    unfold truthy in Hs. rewrite Hs. reflexivity.
  - intros q. erewrite A_run by reflexivity. cbn [snd].
    unfold A_spec, joint_angle, offset_distance.
    unfold truthy in Hs. apply negb_true_iff in Hs. rewrite Hs.
    destruct (int (dflt (PyBool false) mdh) =? 0)%Z; reflexivity.
Qed.

Lemma prismatic_stores_zero_d_and_given_theta_witness :
  let self := descriptor 0 false (0, 0) 1 1 0 0 0 0 None in
  _d self = Some 0 /\
  _theta self = Some 1 /\
  isprismatic self = (self, Ok true) /\
  forall q,
    snd (A q self) =
      Ok (mkSE3 (standard_DH (sin 1) (cos 1) (sin 0) (cos 0) 0 (q + 0))).
Proof.
  cbv zeta.
  apply (prismatic_stores_zero_d_and_given_theta
           (Some 0) (Some 0) (Some 1) (Some 0) (Some 1%Z)
           (Some (PyBool false)) (forwarded None None None)).
  - reflexivity.
  - unfold construct. rewrite DHLink__init___run.
    cbv [dflt forwarded kw_offset kw_flip kw_qlim]. rewrite ne0_0.
    reflexivity.
Defined.

(** ** Further properties of construction *)

Lemma repeated_keyword_some (more_kwargs : list string) (k : string) :
  In k more_kwargs -> In k explicit_keywords ->
  exists k', repeated_keyword more_kwargs = Some k'.
Proof.
  intros Hk He. unfold repeated_keyword.
  destruct (find (fun k0 => existsb (String.eqb k0) explicit_keywords)
                 more_kwargs) as [k' |] eqn:F.
  - exists k'. reflexivity.
  - exfalso. pose proof (find_none _ _ F k Hk) as Hf. cbv beta in Hf.
    assert (Ht : existsb (String.eqb k) explicit_keywords = true).
    { apply existsb_exists. exists k. split; [exact He |].
      apply String.eqb_refl. }
    rewrite Ht in Hf. discriminate.
Qed.

(** X1.  Each of the four named constructors, called with no keyword
    beyond its own parameters, succeeds for every choice of its
    arguments, and yields a descriptor with the joint type and the
    convention of its class, the scalar the class fixes equal to 0, the
    other scalars and [offset], [qlim], [flip] as given (or at their
    defaults), and [id = None].  Called with a keyword for something
    the class fixes ([theta], [sigma] or [mdh] for the revolute classes,
    [d], [sigma] or [mdh] for the prismatic ones), it raises a
    [TypeError] and assigns no attribute. *)
Theorem named_constructors_succeed_or_reject_keyword :
  forall x a alpha offset qlim flip,
    let o := dflt 0 offset in
    let ql := dflt (0, 0) qlim in
    let f := dflt false flip in
    (construct (RevoluteDH__init__ x a alpha offset qlim flip []) =
       Ok (descriptor o f ql 0 0 (dflt 0 x) (dflt 0 alpha) (dflt 0 a) 0 None)
     /\
     construct (PrismaticDH__init__ x a alpha offset qlim flip []) =
       Ok (descriptor o f ql 1 (dflt 0 x) 0 (dflt 0 alpha) (dflt 0 a) 0 None)
     /\
     construct (RevoluteMDH__init__ x a alpha offset qlim flip []) =
       Ok (descriptor o f ql 0 0 (dflt 0 x) (dflt 0 alpha) (dflt 0 a) 1 None)
     /\
     construct (PrismaticMDH__init__ x a alpha offset qlim flip []) =
       Ok (descriptor o f ql 1 (dflt 0 x) 0 (dflt 0 alpha) (dflt 0 a) 1 None))
    /\
    (forall more_kwargs,
       In "theta"%string more_kwargs \/ In "sigma"%string more_kwargs \/
       In "mdh"%string more_kwargs ->
       exists msg,
         RevoluteDH__init__ x a alpha offset qlim flip more_kwargs empty =
           (empty, Raise (TypeError msg)) /\
         RevoluteMDH__init__ x a alpha offset qlim flip more_kwargs empty =
           (empty, Raise (TypeError msg))) /\
    (forall more_kwargs,
       In "d"%string more_kwargs \/ In "sigma"%string more_kwargs \/
       In "mdh"%string more_kwargs ->
       exists msg,
         PrismaticDH__init__ x a alpha offset qlim flip more_kwargs empty =
           (empty, Raise (TypeError msg)) /\
         PrismaticMDH__init__ x a alpha offset qlim flip more_kwargs empty =
           (empty, Raise (TypeError msg))).
Proof.
  intros. subst o ql f. split; [| split].
  - unfold construct, RevoluteDH__init__, PrismaticDH__init__,
      RevoluteMDH__init__, PrismaticMDH__init__.
    cbv [super__init__ repeated_keyword find].
    rewrite !DHLink__init___run.
    cbv [forwarded kw_offset kw_flip kw_qlim].
    cbn [dflt truthy Z.eqb negb andb int]. rewrite ne0_0.
    rewrite ?andb_false_r.
    repeat split; reflexivity.
  - intros more_kwargs Hin.
    assert (Hrep : exists k', repeated_keyword more_kwargs = Some k').
    { destruct Hin as [Hin | [Hin | Hin]];
        (eapply repeated_keyword_some; [exact Hin |]); cbn; tauto. }
    destruct Hrep as [k' Hk]. eexists.
    unfold RevoluteDH__init__, RevoluteMDH__init__, super__init__.
    rewrite Hk. split; reflexivity.
  - intros more_kwargs Hin.
    assert (Hrep : exists k', repeated_keyword more_kwargs = Some k').
    { destruct Hin as [Hin | [Hin | Hin]];
        (eapply repeated_keyword_some; [exact Hin |]); cbn; tauto. }
    destruct Hrep as [k' Hk]. eexists.
    unfold PrismaticDH__init__, PrismaticMDH__init__, super__init__.
    rewrite Hk. split; reflexivity.
Qed.

Lemma named_constructors_succeed_or_reject_keyword_witness :
  (exists msg,
     RevoluteDH__init__ (Some 1) None None None None None ["theta"%string]
                        empty
       = (empty, Raise (TypeError msg))) /\
  (exists msg,
     PrismaticDH__init__ (Some 1) None None None None None ["d"%string]
                         empty
       = (empty, Raise (TypeError msg))).
Proof.
  pose proof (named_constructors_succeed_or_reject_keyword
                (Some 1) None None None None None) as (_ & Hrev & Hpri).
  split.
  - destruct (Hrev ["theta"%string]) as (msg & H & _).
    + left. left. reflexivity.
    + exists msg. exact H.
  - destruct (Hpri ["d"%string]) as (msg & H & _).
    + left. left. reflexivity.
    + exists msg. exact H.
Defined.

(** X2.  [DHLink(...)] returns a descriptor exactly when the scalar that
    the joint type fixes is 0: [theta] for a revolute joint, [d] for a
    prismatic one.  Otherwise it raises a [ValueError], and nothing
    else. *)
Theorem construction_succeeds_iff :
  forall d alpha theta a sigma mdh kw,
    let fixed_is_zero :=
      if truthy (dflt 0%Z sigma) then dflt 0 d = 0 else dflt 0 theta = 0 in
    ((exists self,
        construct (DHLink__init__ d alpha theta a sigma mdh kw) = Ok self)
     <-> fixed_is_zero) /\
    ((exists msg,
        construct (DHLink__init__ d alpha theta a sigma mdh kw)
          = Raise (ValueError msg))
     <-> ~ fixed_is_zero).
Proof.
  intros. subst fixed_is_zero. unfold construct.
  rewrite DHLink__init___run. cbv zeta.
  destruct (truthy (dflt 0%Z sigma)); cbn [negb andb].
  - destruct (ne0 (dflt 0 d)) eqn:E.
    + apply ne0_true in E. split; split.
      * intros [self H]; discriminate.
      * intros H; contradiction.
      * intros _; exact E.
      * intros _; eexists; reflexivity.
    + apply ne0_false in E. split; split.
      * intros _; exact E.
      * intros _; eexists; reflexivity.
      * intros [msg H]; discriminate.
      * intros H; contradiction.
  - destruct (ne0 (dflt 0 theta)) eqn:E.
    + apply ne0_true in E. split; split.
      * intros [self H]; discriminate.
      * intros H; contradiction.
      * intros _; exact E.
      * intros _; eexists; reflexivity.
    + apply ne0_false in E. split; split.
      * intros _; exact E.
      * intros _; eexists; reflexivity.
      * intros [msg H]; discriminate.
      * intros H; contradiction.
Qed.

(** ** Further properties of the setters *)

(** X3.  Reading back what was assigned: after a setter call that
    completes, the getter of the same property returns the assigned
    value; for [mdh] it returns the integer [int(mdh_new)], so [True]
    reads back as [1] and [False] as [0]. *)
Theorem getter_returns_assigned_value :
  forall self : DHLink,
    (forall v, snd (d_setter v self) = Ok tt ->
       snd (d_getter (fst (d_setter v self))) = Ok v) /\
    (forall v, snd (theta_setter v self) = Ok tt ->
       snd (theta_getter (fst (theta_setter v self))) = Ok v) /\
    (forall v, snd (alpha_getter (fst (alpha_setter v self))) = Ok v) /\
    (forall v, snd (a_getter (fst (a_setter v self))) = Ok v) /\
    (forall v, snd (sigma_getter (fst (sigma_setter v self))) = Ok v) /\
    (forall v, snd (mdh_getter (fst (mdh_setter v self))) = Ok (int v)) /\
    (forall b, snd (mdh_getter (fst (mdh_setter (PyBool b) self)))
               = Ok (if b then 1%Z else 0%Z)).
Proof.
  intros self. repeat split; try reflexivity.
  - intros v. run.
    destruct self as [o f ql [s|] th dd al aa md i]; cbn;
      [| discriminate].
    destruct (truthy s && ne0 v); cbn; [discriminate | reflexivity].
  - intros v. run.
    destruct self as [o f ql [s|] th dd al aa md i]; cbn;
      [| discriminate].
    destruct (negb (truthy s) && ne0 v); cbn; [discriminate | reflexivity].
Qed.

Lemma getter_returns_assigned_value_witness :
  let prismatic := descriptor 0 false (0, 0) 1 0 0 0 0 0 None in
  snd (d_getter (fst (d_setter 0 prismatic))) = Ok 0 /\
  snd (theta_getter (fst (theta_setter 1 prismatic))) = Ok 1.
Proof.
  cbv zeta. split.
  - apply (proj1 (getter_returns_assigned_value _)).
    rewrite (d_setter_run _ 1%Z) by reflexivity.
    rewrite ne0_0. reflexivity.
  - apply (proj1 (proj2 (getter_returns_assigned_value _))).
    rewrite (theta_setter_run _ 1%Z) by reflexivity. reflexivity.
Defined.

(** X4.  A setter call, whether it completes or raises, never changes
    [offset], [flip], [qlim] or [id], and never changes a kinematic
    attribute other than its own. *)
Theorem setter_changes_own_attribute_only :
  forall m self,
    let self' := fst (mutate m self) in
    _offset self' = _offset self /\ _flip self' = _flip self /\
    _qlim self' = _qlim self /\ id self' = id self /\
    ((forall v, m <> Set_d v) -> _d self' = _d self) /\
    ((forall v, m <> Set_alpha v) -> _alpha self' = _alpha self) /\
    ((forall v, m <> Set_theta v) -> _theta self' = _theta self) /\
    ((forall v, m <> Set_a v) -> _a self' = _a self) /\
    ((forall v, m <> Set_sigma v) -> _sigma self' = _sigma self) /\
    ((forall v, m <> Set_mdh v) -> _mdh self' = _mdh self).
Proof.
  intros m self. cbv zeta.
  destruct self as [o f ql [s|] th dd al aa md i]; destruct m; run;
    try (destruct (truthy s && ne0 v));
    try (destruct (negb (truthy s) && ne0 v));
    cbn; repeat split; try reflexivity;
    intros H; exfalso; eapply H; reflexivity.
Qed.

Lemma setter_changes_own_attribute_only_witness :
  let self := descriptor 0 false (0, 0) 0 0 1 2 3 0 None in
  _d (fst (mutate (Set_alpha 5) self)) = Some 1 /\
  _alpha (fst (mutate (Set_d 7) self)) = Some 2.
Proof.
  cbv zeta. split.
  - apply (setter_changes_own_attribute_only (Set_alpha 5)).
    intros v; discriminate.
  - apply (setter_changes_own_attribute_only (Set_d 7)).
    intros v; discriminate.
Defined.

(** ** Further properties of the link transform *)

(** X5.  In every reachable state of a descriptor and for every joint
    value, [A] returns without raising and leaves the descriptor as it
    was; the matrix it wraps has four rows of four entries, and its
    bottom row is [0 0 0 1]. *)
Theorem A_returns_in_every_reachable_state :
  forall self q,
    reachable self ->
    exists T,
      A q self = (self, Ok T) /\
      List.length (SE3_A T) = 4%nat /\
      Forall (fun row => List.length row = 4%nat) (SE3_A T) /\
      bottom_row (SE3_A T) = [0; 0; 0; 1].
Proof.
  intros self q Hr.
  destruct (reachable_initialised self Hr)
    as (o & f & ql & s & th & dd & al & aa & md & i & ->).
  eexists. split.
  - apply (A_run _ o f s th dd al aa md); reflexivity.
  - cbn [SE3_A]. unfold A_spec. cbv zeta.
    destruct (md =? 0)%Z; unfold standard_DH, modified_DH, bottom_row;
      cbn [List.length nth]; repeat split; repeat constructor.
Qed.

Lemma A_returns_in_every_reachable_state_witness :
  let self := descriptor 0 false (0, 0) 0 0 0 0 0 0 None in
  exists T,
    A 1 self = (self, Ok T) /\
    List.length (SE3_A T) = 4%nat /\
    Forall (fun row => List.length row = 4%nat) (SE3_A T) /\
    bottom_row (SE3_A T) = [0; 0; 0; 1].
Proof.
  cbv zeta. apply A_returns_in_every_reachable_state.
  apply (reach_new None None None None None None no_kwargs).
  unfold construct. rewrite DHLink__init___run. cbv [dflt].
  rewrite ne0_0. reflexivity.
Defined.

(** X6.  As the docstring of [A] notes, the stored [theta] of a
    revolute link and the stored [d] of a prismatic link are ignored:
    the transform is the same whatever value they hold. *)
Theorem A_ignores_driven_parameter :
  forall offset flip qlim sigma theta theta' d d' alpha a mdh id_ q,
    (sigma = 0%Z ->
     snd (A q (descriptor offset flip qlim sigma theta d alpha a mdh id_)) =
     snd (A q (descriptor offset flip qlim sigma theta' d alpha a mdh id_))) /\
    (sigma <> 0%Z ->
     snd (A q (descriptor offset flip qlim sigma theta d alpha a mdh id_)) =
     snd (A q (descriptor offset flip qlim sigma theta d' alpha a mdh id_))).
Proof.
  intros. split; intros Hs.
  - rewrite (A_run _ offset flip sigma theta d alpha a mdh) by reflexivity.
    rewrite (A_run _ offset flip sigma theta' d alpha a mdh) by reflexivity.
    subst sigma. reflexivity.
  - rewrite (A_run _ offset flip sigma theta d alpha a mdh) by reflexivity.
    rewrite (A_run _ offset flip sigma theta d' alpha a mdh) by reflexivity.
    apply Z.eqb_neq in Hs. unfold A_spec, joint_angle, offset_distance.
    rewrite Hs. reflexivity.
Qed.

Lemma A_ignores_driven_parameter_witness :
  snd (A 1 (descriptor 0 false (0, 0) 0 0 2 3 4 0 None)) =
  snd (A 1 (descriptor 0 false (0, 0) 0 5 2 3 4 0 None)) /\
  snd (A 1 (descriptor 0 false (0, 0) 1 2 0 3 4 0 None)) =
  snd (A 1 (descriptor 0 false (0, 0) 1 2 5 3 4 0 None)).
Proof.
  split.
  - apply (proj1 (A_ignores_driven_parameter
                    0 false (0, 0) 0%Z 0 5 2 2 3 4 0%Z None 1)).
    reflexivity.
  - apply (proj2 (A_ignores_driven_parameter
                    0 false (0, 0) 1%Z 2 2 0 5 3 4 0%Z None 1)).
    discriminate.
Defined.

(** X7.  [offset] and [flip] act on the joint value only: the transform
    of a link at [q] is the transform that the same link with
    [offset = 0] and no flip has at [-q + offset] (flipped) or
    [q + offset] (not flipped). *)
Theorem A_offset_and_flip_adjust_q :
  forall offset flip qlim sigma theta d alpha a mdh id_ q,
    snd (A q (descriptor offset flip qlim sigma theta d alpha a mdh id_)) =
    snd (A (if flip then - q + offset else q + offset)
           (descriptor 0 false qlim sigma theta d alpha a mdh id_)).
Proof.
  intros.
  rewrite (A_run _ offset flip sigma theta d alpha a mdh) by reflexivity.
  rewrite (A_run _ 0 false sigma theta d alpha a mdh) by reflexivity.
  unfold A_spec, adjusted. rewrite Rplus_0_r. reflexivity.
Qed.

(** X8.  The matrix built by [A] is the product stated in the class
    docstrings: Rz(theta) Tz(d) Tx(a) Rx(alpha) in the standard
    convention and Tx(a) Rx(alpha) Rz(theta) Tz(d) in the modified one,
    where theta and d are the joint angle and the offset distance
    resolved by joint type. *)
Theorem A_is_product_of_elementary_transforms :
  forall (offset : R) (flip : bool) qlim (sigma : Z) (theta d alpha a : R)
         (mdh : Z) id_ (q : R),
    let q' := if flip then - q + offset else q + offset in
    let angle := if (sigma =? 0)%Z then q' else theta in
    let dist := if (sigma =? 0)%Z then d else q' in
    snd (A q (descriptor offset flip qlim sigma theta d alpha a mdh id_)) =
      Ok (mkSE3
            (if (mdh =? 0)%Z
             then mmul (T_rz angle)
                       (mmul (T_tz dist) (mmul (T_tx a) (T_rx alpha)))
             else mmul (T_tx a)
                       (mmul (T_rx alpha) (mmul (T_rz angle) (T_tz dist))))).
Proof.
  intros.
  rewrite (A_run _ offset flip sigma theta d alpha a mdh) by reflexivity.
  cbn [snd]. unfold A_spec, adjusted, joint_angle, offset_distance.
  fold q'. fold angle. fold dist.
  clearbody angle dist.
  destruct (mdh =? 0)%Z; matrices;
    do 2 f_equal; repeat (f_equal; try ring).
Qed.

(** X12.  With zero twist and zero link length ([alpha = 0], [a = 0])
    the convention does not matter: for every stored [mdh] the transform
    is the rotation about z by the joint angle followed by the
    translation along z by the offset distance. *)
Theorem A_without_twist_and_length :
  forall (offset : R) (flip : bool) qlim (sigma : Z) (theta d : R)
         (mdh : Z) id_ (q : R),
    let q' := if flip then - q + offset else q + offset in
    let angle := if (sigma =? 0)%Z then q' else theta in
    let dist := if (sigma =? 0)%Z then d else q' in
    snd (A q (descriptor offset flip qlim sigma theta d 0 0 mdh id_)) =
      Ok (mkSE3 (mmul (T_rz angle) (T_tz dist))).
Proof.
  intros.
  rewrite (A_run _ offset flip sigma theta d 0 0 mdh) by reflexivity.
  cbn [snd]. unfold A_spec, adjusted, joint_angle, offset_distance.
  fold q'. fold angle. fold dist. clearbody angle dist.
  rewrite sin_0, cos_0.
  destruct (mdh =? 0)%Z; matrices;
    do 2 f_equal; repeat (f_equal; try ring).
Qed.

(** ** Further properties of [+] *)







(** ** The string form *)

(** X14.  On every descriptor [__str__] returns a text and leaves the
    descriptor as it was; [__repr__] returns the same text.  The text
    begins with [Revolute] exactly when [isrevolute] answers [True], and
    with [Prismatic] otherwise; it does not depend on the convention
    [mdh]. *)
Theorem str_names_joint_type :
  forall format_2f format_id offset flip qlim sigma theta d alpha a mdh id_,
    let self := descriptor offset flip qlim sigma theta d alpha a mdh id_ in
    exists s,
      DHLink__str__ format_2f format_id self = (self, Ok s) /\
      DHLink__repr__ format_2f format_id self = (self, Ok s) /\
      snd (isrevolute self) = Ok (prefix "Revolute" s) /\
      snd (isprismatic self) = Ok (prefix "Prismatic" s) /\
      forall mdh',
        snd (DHLink__str__ format_2f format_id
               (descriptor offset flip qlim sigma theta d alpha a mdh' id_))
        = Ok s.
Proof.
  intros. subst self. unfold DHLink__repr__.
  rewrite (isrevolute_run _ sigma), (isprismatic_run _ sigma) by reflexivity.
  unfold DHLink__str__, id_getter. run. unfold truthy.
  destruct (sigma =? 0)%Z; cbn [negb];
    eexists; repeat split; reflexivity.
Qed.
